(** * The "Custom Events" component panel of the Orchestrator editor plugin

    A shallow embedding of [OrchestratorScriptCustomEventsComponentPanel]
    (editor/component_panels/custom_events_panel.{h,cpp}) and the properties
    its specification states about it.

    The panel is an adapter between the host editor's tree widget and the
    [Orchestration] that owns the custom events.  Its methods are modelled
    as computations over a [World]: the orchestration, the tree widget and
    the chronological list of calls the panel made to code that lives
    outside the panel (base class, editor singleton, orchestration
    mutators). *)

From stdpp Require Import base option strings list gmap sorting.
From Stdlib Require Import ZArith.

Local Open Scope Z_scope.
Local Open Scope string_scope.
Local Open Scope list_scope.

Set Warnings "-register-all".

(** ** Godot value types *)

(** [String]: compared by code point; a byte string has the same order. *)
Abbreviation String := string (only parsing).

(** [PackedStringArray]: a contiguous array of strings; duplicates and
    order are observable. *)
Abbreviation PackedStringArray := (list string) (only parsing).

(** [Ref<T>]: a counted reference that may be null; [is_valid] tells. *)
Abbreviation Ref := option (only parsing).

Definition is_valid {T : Type} (r : Ref T) : bool :=
  match r with Some _ => true | None => false end.

(** [Variant], restricted to the alternatives a drag payload can hold, and
    [Dictionary], restricted to string keys (the panel only writes the keys
    "type" and "signals"). *)
Inductive Variant : Type :=
| V_NIL
| V_BOOL (b : bool)
| V_INT (i : Z)
| V_STRING (s : String)
| V_ARRAY (a : list Variant)
| V_DICTIONARY (d : gmap string Variant).

Abbreviation Dictionary := (gmap string Variant) (only parsing).

(** [PackedStringArray::is_empty] and [PackedStringArray::has] *)
Definition is_empty (a : PackedStringArray) : bool :=
  match a with [] => true | _ => false end.

Definition has (a : PackedStringArray) (s : String) : bool :=
  bool_decide (s ∈ a).

(** [PackedStringArray::sort]: ascending by [String::operator<].  The order
    is total and antisymmetric, so the sorted array does not depend on the
    algorithm (see [sort_unique]). *)
Definition sort (a : PackedStringArray) : PackedStringArray :=
  merge_sort String.le a.

(** Key codes, from the engine's [Key] enumeration. *)
Definition Key : Type := Z.
Definition KEY_SPECIAL : Key := Z.shiftl 1 22.
Definition KEY_DELETE : Key := Z.lor KEY_SPECIAL 8.
Definition KEY_F2 : Key := Z.lor KEY_SPECIAL 29.

(** Input events: [InputEventKey] and every other kind of event. *)
Record InputEventKey : Type := mkInputEventKey {
  is_pressed : bool;
  is_echo : bool;
  get_keycode : Key
}.

Inductive InputEvent : Type :=
| IE_Key (k : InputEventKey)
| IE_Other (pressed : bool).

(** The conversion [Ref<InputEvent>] to [Ref<InputEventKey>]: a dynamic
    cast, null when the event is null or of another class. *)
Definition cast_to_key (e : Ref InputEvent) : Ref InputEventKey :=
  match e with
  | Some (IE_Key k) => Some k
  | _ => None
  end.

(** ** The tree widget *)

(** A [TreeItem], with the fields of column 0 that the panel touches. *)
Inductive TreeItem : Type := mkTreeItem {
  item_text : String;
  item_name : String;
  item_icon : String;
  item_selectable : bool;
  item_children : list TreeItem
}.

(** The item [TreeItem::create_child] makes: empty and selectable. *)
Definition new_item : TreeItem :=
  mkTreeItem EmptyString EmptyString EmptyString true [].

Definition set_text (s : String) (it : TreeItem) : TreeItem :=
  mkTreeItem s (item_name it) (item_icon it) (item_selectable it)
             (item_children it).

Definition set_selectable (b : bool) (it : TreeItem) : TreeItem :=
  mkTreeItem (item_text it) (item_name it) (item_icon it) b
             (item_children it).

Definition add_child (c : TreeItem) (it : TreeItem) : TreeItem :=
  mkTreeItem (item_text it) (item_name it) (item_icon it)
             (item_selectable it) (item_children it ++ [c]).

Definition alter_child (f : TreeItem → TreeItem) (i : nat) (it : TreeItem)
  : TreeItem :=
  mkTreeItem (item_text it) (item_name it) (item_icon it)
             (item_selectable it) (alter f i (item_children it)).

Definition get_child_count (it : TreeItem) : nat :=
  length (item_children it).

Definition is_leaf (it : TreeItem) : bool :=
  match item_children it with [] => true | _ => false end.

(** The [Tree]: its hidden root, and the item [get_selected] returns (null
    when nothing is selected). *)
Record Tree : Type := mkTree {
  get_root : TreeItem;
  get_selected : Ref TreeItem
}.

(** ** Context menu ids *)

Definition CM_RENAME_EVENT : Z := 0.
Definition CM_REMOVE_EVENT : Z := 1.

(** ** Collaborators *)

(** The interface of [Orchestration] that the panel consumes.  Queries
    read the orchestration; the three mutators return the new one. *)
Class OrchestrationAPI (Orchestration OScriptSignal : Type) := {
  get_custom_event_names : Orchestration → PackedStringArray;
  get_custom_event : Orchestration → String → Ref OScriptSignal;
  find_custom_event : Orchestration → String → Ref OScriptSignal;
  create_custom_event :
    Orchestration → String → Ref OScriptSignal * Orchestration;
  rename_custom_user_event :
    Orchestration → String → String → bool * Orchestration;
  remove_custom_event : Orchestration → String → Orchestration
}.

(** What the panel uses from the engine, from [DictionaryUtils] and from
    its base class [OrchestratorScriptComponentPanel] and whose result it
    depends on. *)
Class HostAPI (OScriptSignal : Type) := {
  (** [String::is_valid_identifier] *)
  is_valid_identifier : String → bool;
  (** [DictionaryUtils::from_method(signal->get_method_info())] *)
  signal_method_dictionary : OScriptSignal → Dictionary;
  (** [OrchestratorScriptComponentPanel::_get_tree_item_name] *)
  _get_tree_item_name : Ref TreeItem → String;
  (** what [OrchestratorScriptComponentPanel::update] does to the tree *)
  base_update : Tree → Tree
}.

Section Panel.

Context {Orchestration OScriptSignal : Type}.
Context {api : OrchestrationAPI Orchestration OScriptSignal}.
Context {host : HostAPI OScriptSignal}.

(** Calls that leave the panel, in the order they are made. *)
Inductive Call : Type :=
| ShowNotification (message : String)
| ShowInvalidName (type : String) (supports_friendly_names : bool)
| EditSelectedTreeItem
| ConfirmRemoval (item : Ref TreeItem)
| EditResource (resource : Ref OScriptSignal)
| AcceptEvent
| AddIconItem (icon label : String) (id : Z) (accel : Key)
| BaseUpdate
| CreateCustomEvent (name : String)
| RenameCustomUserEvent (old_name new_name : String)
| RemoveCustomEvent (name : String).

Record World : Type := mkWorld {
  _orchestration : Orchestration;
  _tree : Tree;
  calls : list Call
}.

(** ** The monad of panel methods *)

Definition Panel (A : Type) : Type := World → A * World.

#[global] Instance Panel_ret : MRet Panel := λ A a w, (a, w).
#[global] Instance Panel_bind : MBind Panel :=
  λ A B f m w, let '(a, w') := m w in f a w'.

Definition gets {A : Type} (f : World → A) : Panel A := λ w, (f w, w).

Definition call (c : Call) : Panel unit :=
  λ w, (tt, mkWorld (_orchestration w) (_tree w) (calls w ++ [c])).

Definition modify_tree (f : Tree → Tree) : Panel unit :=
  λ w, (tt, mkWorld (_orchestration w) (f (_tree w)) (calls w)).

Definition modify_root (f : TreeItem → TreeItem) : Panel unit :=
  modify_tree (λ t, mkTree (f (get_root t)) (get_selected t)).

(** A mutator of the orchestration: the call is recorded and the
    orchestration replaced. *)
Definition mutate {A : Type} (c : Call)
    (f : Orchestration → A * Orchestration) : Panel A :=
  λ w, let '(a, o) := f (_orchestration w) in
       (a, mkWorld o (_tree w) (calls w ++ [c])).

Fixpoint for_each {A : Type} (l : list A) (body : A → Panel unit)
  : Panel unit :=
  match l with
  | [] => mret tt
  | x :: l' => body x ;; for_each l' body
  end.

Definition run {A : Type} (m : Panel A) (w : World) : A * World := m w.

(** ** Base-class and widget operations *)

(** [_show_notification], [_show_invalid_name], [_edit_selected_tree_item],
    [_confirm_removal], [accept_event], [EditorInterface::edit_resource],
    [PopupMenu::add_icon_item]: calls out of the panel. *)
Definition _show_notification (message : String) : Panel unit :=
  call (ShowNotification message).
Definition _show_invalid_name (type : String) (friendly : bool) : Panel unit :=
  call (ShowInvalidName type friendly).
Definition _edit_selected_tree_item : Panel unit :=
  call EditSelectedTreeItem.
Definition _confirm_removal (item : Ref TreeItem) : Panel unit :=
  call (ConfirmRemoval item).
Definition accept_event : Panel unit :=
  call AcceptEvent.
Definition edit_resource (r : Ref OScriptSignal) : Panel unit :=
  call (EditResource r).
Definition add_icon_item (icon label : String) (id : Z) (accel : Key)
  : Panel unit :=
  call (AddIconItem icon label id accel).

(** Modelled from the spec: the base class's [_clear_tree] is not part of
    the sources at hand.  "The tree is fully cleared and rebuilt each
    update": every item goes, the selection with them, and the hidden root
    that [update] dereferences right after is there again, without
    children. *)
Definition _clear_tree : Panel unit :=
  modify_tree (λ _, mkTree new_item None).

(** Modelled from the spec: the base class's [_create_item(parent, text,
    item_name, icon_name)] is not part of the sources at hand.  "Inserts
    one leaf per name (icon tag "MemberSignal")": a new last child of the
    parent, here always the root, carrying the text, the name and the icon
    tag. *)
Definition _create_item (text name icon : String) : Panel unit :=
  modify_root (add_child (mkTreeItem text name icon true [])).

(** [TreeItem::create_child] on the root; the result designates the new
    child by its index. *)
Definition root_create_child : Panel nat :=
  i ← gets (λ w, get_child_count (get_root (_tree w)));
  modify_root (add_child new_item);;
  mret i.

(** [OrchestratorScriptComponentPanel::update], the base class's part:
    recorded as a call, and applied to the tree. *)
Definition OrchestratorScriptComponentPanel_update : Panel unit :=
  call BaseUpdate;;
  modify_tree base_update.

(** ** The panel's methods *)

Definition _get_existing_names : Panel PackedStringArray :=
  gets (λ w, get_custom_event_names (_orchestration w)).

Definition _get_tooltip_text : String :=
  "A signal is used to send a notification synchronously to any number of observers that have "
  +:+ "connected to the defined signal on the orchestration. Signals allow for a variable number "
  +:+ "of arguments to be passed to the observer."
  +:+ String.String (Ascii.ascii_of_nat 10)
        (String.String (Ascii.ascii_of_nat 10) EmptyString)
  +:+ "Selecting a signal in the component view displays the signal details in the inspector.".

Definition _get_remove_confirm_text (p_item : Ref TreeItem) : String :=
  "Removing a signal will remove all nodes that emit the signal.".

Definition _get_unique_name_prefix : String := "NewEvent".
Definition _get_item_name : String := "Signal".

Definition _populate_context_menu (p_item : Ref TreeItem) : Panel bool :=
  add_icon_item "Rename" "Rename" CM_RENAME_EVENT KEY_F2;;
  add_icon_item "Remove" "Remove" CM_REMOVE_EVENT KEY_DELETE;;
  mret true.

Definition _handle_context_menu (p_id : Z) : Panel unit :=
  if decide (p_id = CM_RENAME_EVENT) then
    _edit_selected_tree_item
  else if decide (p_id = CM_REMOVE_EVENT) then
    selected ← gets (λ w, get_selected (_tree w));
    _confirm_removal selected
  else
    mret tt.

Definition _handle_add_new_item (p_name : String) : Panel bool :=
  event ← mutate (CreateCustomEvent p_name)
                 (λ o, create_custom_event o p_name);
  mret (is_valid event).

Definition _handle_item_selected : Panel unit :=
  item ← gets (λ w, get_selected (_tree w));
  signal ← gets (λ w, get_custom_event (_orchestration w)
                                       (_get_tree_item_name item));
  edit_resource signal.

Definition _handle_item_activated (p_item : Ref TreeItem) : Panel unit :=
  signal ← gets (λ w, get_custom_event (_orchestration w)
                                       (_get_tree_item_name p_item));
  edit_resource signal.

Definition _handle_item_renamed (p_old_name p_new_name : String)
  : Panel bool :=
  names ← _get_existing_names;
  if has names p_new_name then
    _show_notification
      ("An event with the name '" +:+ p_new_name +:+ "' already exists.");;
    mret false
  else if negb (is_valid_identifier p_new_name) then
    _show_invalid_name "event" false;;
    mret false
  else
    mutate (RenameCustomUserEvent p_old_name p_new_name)
           (λ o, rename_custom_user_event o p_old_name p_new_name).

Definition _handle_remove (p_item : Ref TreeItem) : Panel unit :=
  mutate (RemoveCustomEvent (_get_tree_item_name p_item))
         (λ o, (tt, remove_custom_event o (_get_tree_item_name p_item))).

Definition _handle_drag_data {Vector2 : Type} (p_position : Vector2)
  : Panel Dictionary :=
  let data : Dictionary := ∅ in
  selected ← gets (λ w, get_selected (_tree w));
  match selected with
  | Some _ =>
      signal ← gets (λ w, find_custom_event (_orchestration w)
                                            (_get_tree_item_name selected));
      match signal with
      | Some s =>
          let data := <["type" := V_STRING "signal"]> data in
          let data :=
            <["signals" := V_DICTIONARY (signal_method_dictionary s)]> data in
          mret data
      | None => mret data
      end
  | None => mret data
  end.

Definition _handle_tree_gui_input (p_event : Ref InputEvent)
    (p_item : Ref TreeItem) : Panel unit :=
  match cast_to_key p_event with
  | Some key =>
      if is_pressed key && negb (is_echo key) then
        if decide (get_keycode key = KEY_F2) then
          _handle_context_menu CM_RENAME_EVENT;;
          accept_event
        else if decide (get_keycode key = KEY_DELETE) then
          _handle_context_menu CM_REMOVE_EVENT;;
          accept_event
        else mret tt
      else mret tt
  | None => mret tt
  end.

Definition update : Panel unit :=
  _clear_tree;;
  signal_names ← gets (λ w, get_custom_event_names (_orchestration w));
  (if negb (is_empty signal_names) then
     let signal_names := sort signal_names in
     for_each signal_names (λ signal_name,
       signal ← gets (λ w, get_custom_event (_orchestration w) signal_name);
       _create_item signal_name signal_name "MemberSignal")
   else mret tt);;
  count ← gets (λ w, get_child_count (get_root (_tree w)));
  if decide (count = 0%nat) then
    item ← root_create_child;
    modify_root (alter_child (set_text "No signals defined") item);;
    modify_root (alter_child (set_selectable false) item);;
    mret tt
  else
    OrchestratorScriptComponentPanel_update.

(** ** Vocabulary of the properties *)

(** The world after the panel made the calls [cs] and changed nothing. *)
Definition after_calls (w : World) (cs : list Call) : World :=
  mkWorld (_orchestration w) (_tree w) (calls w ++ cs).

(** The notice of a rename onto an existing name. *)
Definition already_exists (p_new_name : String) : Call :=
  ShowNotification
    ("An event with the name '" +:+ p_new_name +:+ "' already exists.").

(** The event is a key event, pressed, not an echo, of key code [k]. *)
Definition key_down (e : Ref InputEvent) (k : Key) : Prop :=
  ∃ key, e = Some (IE_Key key) ∧ is_pressed key = true
         ∧ is_echo key = false ∧ get_keycode key = k.

(** The item [update] makes for an event name. *)
Definition signal_item (signal_name : String) : TreeItem :=
  mkTreeItem signal_name signal_name "MemberSignal" true [].

(** The item [update] makes when there is no event. *)
Definition placeholder_item : TreeItem :=
  mkTreeItem "No signals defined" EmptyString EmptyString false [].

(** The hidden root over the given items. *)
Definition root_over (items : list TreeItem) : TreeItem :=
  mkTreeItem EmptyString EmptyString EmptyString true items.

(** The calls made on the way from world [w] to world [w']. *)
Definition new_calls (w w' : World) : list Call :=
  drop (length (calls w)) (calls w').

(** The id and the accelerator of the context-menu entries among calls. *)
Definition menu_entries (cs : list Call) : list (Z * Key) :=
  omap (λ c, match c with
             | AddIconItem _ _ id accel => Some (id, accel)
             | _ => None
             end) cs.

(** The calls that change the orchestration. *)
Definition is_mutation (c : Call) : bool :=
  match c with
  | CreateCustomEvent _ | RenameCustomUserEvent _ _ | RemoveCustomEvent _ =>
      true
  | _ => false
  end.

End Panel.

(** ** A sample instance

    A small orchestration to run the panel on: the event names in
    declaration order, an event being identified by its name; identifiers
    are the ASCII ones; the base class's update leaves the tree alone. *)
Module Sample.

Definition lookup_event (o : list string) (n : String) : Ref string :=
  if has o n then Some n else None.

Definition rename_event (o : list string) (a b : String)
  : bool * list string :=
  if has o a && negb (has o b)
  then (true, (λ n, if decide (n = a) then b else n) <$> o)
  else (false, o).

#[global] Instance api : OrchestrationAPI (list string) string := {|
  get_custom_event_names o := o;
  get_custom_event := lookup_event;
  find_custom_event := lookup_event;
  create_custom_event o n :=
    if has o n then (None, o) else (Some n, (o ++ [n])%list);
  rename_custom_user_event := rename_event;
  remove_custom_event o n := filter (λ m, m ≠ n) o
|}.

Definition is_digit (c : Ascii.ascii) : bool :=
  let n := Ascii.nat_of_ascii c in (48 <=? n)%nat && (n <=? 57)%nat.

Definition is_letter (c : Ascii.ascii) : bool :=
  let n := Ascii.nat_of_ascii c in
  ((65 <=? n)%nat && (n <=? 90)%nat) || ((97 <=? n)%nat && (n <=? 122)%nat)
  || (n =? 95)%nat.

Fixpoint all_chars (f : Ascii.ascii → bool) (s : string) : bool :=
  match s with
  | EmptyString => true
  | String.String c s' => f c && all_chars f s'
  end.

Definition ascii_identifier (s : string) : bool :=
  match s with
  | EmptyString => false
  | String.String c _ =>
      negb (is_digit c) && all_chars (λ c, is_digit c || is_letter c) s
  end.

#[global] Instance host : HostAPI string := {|
  is_valid_identifier := ascii_identifier;
  signal_method_dictionary s := {[ "name" := V_STRING s ]};
  _get_tree_item_name p :=
    match p with Some it => item_name it | None => EmptyString end;
  base_update t := t
|}.

(** A world over the given event names, with the given selection and no
    call made yet. *)
Definition world (names : list string) (selected : Ref TreeItem)
  : @World (list string) string :=
  mkWorld names (mkTree (root_over []) selected) [].

End Sample.

(** * Properties *)

(** ** The order of names *)

Lemma sort_Sorted (a : list string) : Sorted String.le (sort a).
Proof. unfold sort. apply (Sorted_merge_sort String.le). Qed.

Lemma sort_Permutation (a : list string) : sort a ≡ₚ a.
Proof. unfold sort. apply (merge_sort_Permutation String.le). Qed.

Lemma length_sort (a : list string) : length (sort a) = length a.
Proof. apply Permutation_length, sort_Permutation. Qed.

(** Any ascending arrangement of the names is the one [sort] gives. *)
Lemma sort_unique (a l : list string) :
  Sorted String.le l → l ≡ₚ a → l = sort a.
Proof.
  intros Hl Hp. apply (Sorted_unique String.le); auto using sort_Sorted.
  rewrite Hp. symmetry. apply sort_Permutation.
Qed.

Lemma has_true (a : list string) (s : string) : s ∈ a → has a s = true.
Proof. intros. unfold has. by rewrite bool_decide_eq_true. Qed.

Lemma has_false (a : list string) (s : string) : s ∉ a → has a s = false.
Proof. intros. unfold has. by rewrite bool_decide_eq_false. Qed.

Lemma KEY_F2_neq_KEY_DELETE : KEY_F2 ≠ KEY_DELETE.
Proof. by vm_compute. Qed.

Section Properties.

Context {Orchestration OScriptSignal : Type}.
Context {api : OrchestrationAPI Orchestration OScriptSignal}.
Context {host : HostAPI OScriptSignal}.

Implicit Types (w : @World Orchestration OScriptSignal).
Implicit Types (p_old_name p_new_name p_name : string).

#[local] Arguments sort : simpl never.

(** Unfolds a panel method down to the world it returns. *)
Ltac run_panel :=
  unfold run, mbind, mret, Panel_bind, Panel_ret, gets, mutate,
    _get_existing_names, _show_notification, _show_invalid_name,
    _edit_selected_tree_item, _confirm_removal, accept_event, edit_resource,
    call, after_calls, already_exists; cbn.

(** ** Renaming *)

Lemma rename_existing_name w p_old_name p_new_name :
  p_new_name ∈ get_custom_event_names (_orchestration w) →
  run (_handle_item_renamed p_old_name p_new_name) w
  = (false, after_calls w [already_exists p_new_name]).
Proof.
  intros Hin. unfold _handle_item_renamed. run_panel.
  by rewrite (has_true _ _ Hin).
Qed.

Lemma rename_invalid_name w p_old_name p_new_name :
  p_new_name ∉ get_custom_event_names (_orchestration w) →
  is_valid_identifier p_new_name = false →
  run (_handle_item_renamed p_old_name p_new_name) w
  = (false, after_calls w [ShowInvalidName "event" false]).
Proof.
  intros Hin Hid. unfold _handle_item_renamed. run_panel.
  by rewrite (has_false _ _ Hin), Hid.
Qed.

(** C1.  A rename onto a name that the existing-names operation returns is
    rejected: the handler returns false, its one call is the "already
    exists" notification, so the orchestration's rename is not called, and
    the orchestration and the tree are as before. *)
Theorem rename_duplicate_rejected w p_old_name p_new_name :
  p_new_name ∈ (run _get_existing_names w).1 →
  let r := run (_handle_item_renamed p_old_name p_new_name) w in
  r.1 = false
  ∧ calls r.2 = calls w ++ [already_exists p_new_name]
  ∧ _orchestration r.2 = _orchestration w
  ∧ _tree r.2 = _tree w.
Proof.
  intros Hin r. subst r. rewrite rename_existing_name by done.
  by repeat split.
Qed.

(** C2.  A rename onto a name that is not a valid identifier is rejected:
    when the name is not an existing one, the handler returns false, its
    one call is the invalid-name notification and nothing else changes;
    when the name is an existing one as well, the duplicate check comes
    first and the one call is the "already exists" notification. *)
Theorem rename_invalid_rejected w p_old_name p_new_name :
  is_valid_identifier p_new_name = false →
  let names := get_custom_event_names (_orchestration w) in
  let r := run (_handle_item_renamed p_old_name p_new_name) w in
  r.1 = false
  ∧ _orchestration r.2 = _orchestration w
  ∧ _tree r.2 = _tree w
  ∧ (p_new_name ∉ names →
     calls r.2 = calls w ++ [ShowInvalidName "event" false])
  ∧ (p_new_name ∈ names →
     calls r.2 = calls w ++ [already_exists p_new_name]).
Proof.
  intros Hid names r. subst r.
  destruct (decide (p_new_name ∈ names)) as [Hin|Hin].
  - rewrite rename_existing_name by done. by repeat split.
  - rewrite rename_invalid_name by done. by repeat split.
Qed.

(** C3.  A rename onto a valid identifier that is not an existing name
    calls the orchestration's [rename_custom_user_event(old, new)], once
    and as its only call, and returns what that call returns; the
    orchestration is the one the call leaves. *)
Theorem rename_delegates w p_old_name p_new_name :
  p_new_name ∉ get_custom_event_names (_orchestration w) →
  is_valid_identifier p_new_name = true →
  let r := run (_handle_item_renamed p_old_name p_new_name) w in
  let d := rename_custom_user_event (_orchestration w) p_old_name p_new_name in
  r.1 = d.1
  ∧ calls r.2 = calls w ++ [RenameCustomUserEvent p_old_name p_new_name]
  ∧ _orchestration r.2 = d.2
  ∧ _tree r.2 = _tree w.
Proof.
  intros Hin Hid r d. subst r d. unfold _handle_item_renamed. run_panel.
  rewrite (has_false _ _ Hin), Hid. cbn.
  by destruct (rename_custom_user_event _ _ _).
Qed.

(** C10.  Renaming an event of the orchestration to the name it has is
    rejected: the existing names include the event's own, so the handler
    returns false, its one call is the "already exists" notification, the
    orchestration's rename is not called and the orchestration is as
    before. *)
Theorem rename_to_same_name_rejected w p_name :
  p_name ∈ get_custom_event_names (_orchestration w) →
  let r := run (_handle_item_renamed p_name p_name) w in
  r.1 = false
  ∧ calls r.2 = calls w ++ [already_exists p_name]
  ∧ _orchestration r.2 = _orchestration w.
Proof.
  intros Hin r. subst r. rewrite rename_existing_name by done.
  by repeat split.
Qed.

(** ** Adding *)

(** C8.  The add handler calls the orchestration's [create_custom_event]
    with the name it is given, as its only call, and returns true exactly
    when the reference that call returns is valid. *)
Theorem add_new_item_creates w p_name :
  let r := run (_handle_add_new_item p_name) w in
  let c := create_custom_event (_orchestration w) p_name in
  calls r.2 = calls w ++ [CreateCustomEvent p_name]
  ∧ _orchestration r.2 = c.2
  ∧ (r.1 = true ↔ ∃ event, c.1 = Some event).
Proof.
  intros r c. subst r c. unfold _handle_add_new_item. run_panel.
  destruct (create_custom_event _ _) as [[event|] o]; cbn.
  - repeat split; eauto.
  - repeat split; [done|]. by intros [? ?].
Qed.

(** ** Selecting and activating *)

Lemma item_selected_edits w :
  run _handle_item_selected w
  = (tt, after_calls w
           [EditResource
              (get_custom_event (_orchestration w)
                 (_get_tree_item_name (get_selected (_tree w))))]).
Proof. unfold _handle_item_selected. by run_panel. Qed.

Lemma item_activated_edits w (p_item : option TreeItem) :
  run (_handle_item_activated p_item) w
  = (tt, after_calls w
           [EditResource
              (get_custom_event (_orchestration w)
                 (_get_tree_item_name p_item))]).
Proof. unfold _handle_item_activated. by run_panel. Qed.

(** C9.  Selecting an item and activating an item of the same name do the
    same: each fetches the orchestration's custom event of that name and
    hands it to the editor's [edit_resource], and does nothing else. *)
Theorem selected_activated_agree w (p_item : option TreeItem) :
  _get_tree_item_name (get_selected (_tree w)) = _get_tree_item_name p_item →
  run _handle_item_selected w = run (_handle_item_activated p_item) w
  ∧ run (_handle_item_activated p_item) w
    = (tt, after_calls w
             [EditResource
                (get_custom_event (_orchestration w)
                   (_get_tree_item_name p_item))]).
Proof.
  intros Hname. rewrite item_selected_edits, item_activated_edits.
  by rewrite Hname.
Qed.

(** ** Dragging *)

(** C5.  The drag payload is empty when no item is selected and when the
    selected item's name does not resolve, through [find_custom_event], to
    a valid signal; when it does, the payload has "type" = "signal" and
    "signals" = the dictionary of the signal's method info, and no other
    key.  The handler makes no call and changes nothing. *)
Theorem drag_data_payload {Vector2 : Type} (p_position : Vector2) w :
  let r := run (_handle_drag_data p_position) w in
  let selected := get_selected (_tree w) in
  let signal :=
    find_custom_event (_orchestration w) (_get_tree_item_name selected) in
  r.2 = w
  ∧ (selected = None → r.1 = ∅)
  ∧ (signal = None → r.1 = ∅)
  ∧ (∀ item s, selected = Some item → signal = Some s →
       r.1 !! "type" = Some (V_STRING "signal")
       ∧ r.1 !! "signals" = Some (V_DICTIONARY (signal_method_dictionary s))
       ∧ dom r.1 = {[ "type"; "signals" ]}).
Proof.
  intros r selected signal. subst r selected signal.
  unfold _handle_drag_data. run_panel.
  destruct (get_selected (_tree w)) as [item|]; cbn; [|done].
  destruct (find_custom_event _ _) as [s|]; cbn; [|done].
  do 3 (split; [done|]).
  intros item' s' _ [= <-]. do 2 (split; [done|]).
  rewrite !dom_insert_L, dom_empty_L. set_solver.
Qed.

(** ** Keyboard input on the tree *)

Lemma context_menu_rename w :
  run (_handle_context_menu CM_RENAME_EVENT) w
  = (tt, after_calls w [EditSelectedTreeItem]).
Proof. unfold _handle_context_menu. by run_panel. Qed.

Lemma context_menu_remove w :
  run (_handle_context_menu CM_REMOVE_EVENT) w
  = (tt, after_calls w [ConfirmRemoval (get_selected (_tree w))]).
Proof. unfold _handle_context_menu. by run_panel. Qed.

(** C6.  A key event that is pressed and not an echo starts, with key code
    F2, the rename of the selected item and, with key code Delete, the
    confirmation of its removal, and accepts the event in both cases; on
    every other event the handler makes no call and changes nothing. *)
Theorem tree_gui_input_shortcuts w (p_event : option InputEvent)
    (p_item : option TreeItem) :
  let r := run (_handle_tree_gui_input p_event p_item) w in
  (key_down p_event KEY_F2 →
     r.2 = after_calls w [EditSelectedTreeItem; AcceptEvent])
  ∧ (key_down p_event KEY_DELETE →
     r.2 = after_calls w
             [ConfirmRemoval (get_selected (_tree w)); AcceptEvent])
  ∧ (¬ key_down p_event KEY_F2 → ¬ key_down p_event KEY_DELETE → r.2 = w).
Proof.
  intros r. subst r. unfold _handle_tree_gui_input, key_down.
  repeat split.
  - intros (key & -> & Hp & He & Hk). cbn. rewrite Hp, He, Hk. cbn.
    rewrite decide_True by done.
    unfold _handle_context_menu. rewrite decide_True by done.
    run_panel. by rewrite <- (assoc_L (++)).
  - intros (key & -> & Hp & He & Hk). cbn. rewrite Hp, He, Hk. cbn.
    rewrite (decide_False (P := KEY_DELETE = KEY_F2))
      by (symmetry; apply KEY_F2_neq_KEY_DELETE).
    rewrite decide_True by done.
    unfold _handle_context_menu.
    rewrite decide_False by done. rewrite decide_True by done.
    run_panel. by rewrite <- (assoc_L (++)).
  - intros Hf2 Hdel.
    destruct p_event as [[key|pressed]|]; cbn; try done.
    destruct (is_pressed key) eqn:Hp, (is_echo key) eqn:He; cbn; try done.
    destruct (decide (get_keycode key = KEY_F2)) as [Hk|_].
    { destruct Hf2. by exists key. }
    destruct (decide (get_keycode key = KEY_DELETE)) as [Hk|_]; [|done].
    destruct Hdel. by exists key.
Qed.

(** ** Rebuilding the tree *)

(** The loop of [update]: one item per name, after the children the root
    has, in the order of the array. *)
Lemma update_loop (l : list string) : ∀ w,
  run (for_each l (λ signal_name,
         signal ← gets (λ w, get_custom_event (_orchestration w) signal_name);
         _create_item signal_name signal_name "MemberSignal")) w
  = (tt, mkWorld (_orchestration w)
           (mkTree
              (mkTreeItem (item_text (get_root (_tree w)))
                 (item_name (get_root (_tree w)))
                 (item_icon (get_root (_tree w)))
                 (item_selectable (get_root (_tree w)))
                 (item_children (get_root (_tree w)) ++ (signal_item <$> l)))
              (get_selected (_tree w)))
           (calls w)).
Proof.
  induction l as [|n l IH]; intros [o [[t nm ic sl ch] sel] cs]; cbn.
  - unfold run, mret, Panel_ret. by rewrite (right_id_L [] (++)).
  - unfold run in *. cbn. unfold mbind, Panel_bind at 1. cbn.
    rewrite IH. cbn. by rewrite <- (assoc_L (++)).
Qed.

Lemma sort_nonempty (a : list string) : a ≠ [] → sort a ≠ [].
Proof.
  intros Ha Hs. apply Ha, length_zero_iff_nil.
  by rewrite <- length_sort, Hs.
Qed.

(** [update] over at least one name. *)
Lemma update_nonempty w :
  get_custom_event_names (_orchestration w) ≠ [] →
  run update w
  = (tt, mkWorld (_orchestration w)
           (base_update
              (mkTree
                 (root_over
                    (signal_item
                       <$> sort (get_custom_event_names (_orchestration w))))
                 None))
           (calls w ++ [BaseUpdate])).
Proof.
  intros Hne. apply sort_nonempty in Hne as Hs.
  unfold update, run, _clear_tree, modify_tree.
  unfold mbind, Panel_bind at 1. cbn.
  unfold mbind, gets, Panel_bind at 1. cbn.
  destruct (get_custom_event_names (_orchestration w)) as [|n l] eqn:Hn;
    [done|]. cbn.
  pose proof (update_loop (sort (n :: l))
                (mkWorld (_orchestration w) (mkTree new_item None) (calls w)))
    as Hloop.
  unfold run in Hloop.
  match type of Hloop with
  | _ = ?after =>
      match goal with
      | |- context [for_each ?a ?b ?c] =>
          replace (for_each a b c) with after by (symmetry; exact Hloop)
      end
  end.
  cbn. rewrite decide_False; [done|].
  unfold get_child_count. cbn. rewrite length_fmap.
  intros Hl. by apply length_zero_iff_nil in Hl.
Qed.

(** [update] over no name. *)
Lemma update_empty w :
  get_custom_event_names (_orchestration w) = [] →
  run update w
  = (tt, mkWorld (_orchestration w)
           (mkTree (root_over [placeholder_item]) None) (calls w)).
Proof.
  intros Hn. unfold update, run, _clear_tree, modify_tree.
  unfold mbind, Panel_bind at 1. cbn.
  unfold mbind, gets, Panel_bind at 1. cbn.
  by rewrite Hn.
Qed.

Lemma signal_item_texts (l : list string) :
  item_text <$> (signal_item <$> l) = l.
Proof. rewrite <- list_fmap_compose. apply list_fmap_id. Qed.

(** C4.  Provided the base class's update keeps the children of the root:
    after [update], when the orchestration reports no custom event name the
    root has one child, of text "No signals defined" and not selectable;
    when it reports N > 0 names the root has N children, all leaves, whose
    texts are the names in ascending order.  The children do not depend on
    the tree before the call: nothing of it survives. *)
Theorem update_renders_names w :
  (∀ t, item_children (get_root (base_update t))
        = item_children (get_root t)) →
  let names := get_custom_event_names (_orchestration w) in
  let items := item_children (get_root (_tree (run update w).2)) in
  (names = [] →
     ∃ item, items = [item] ∧ item_text item = "No signals defined"
             ∧ item_selectable item = false)
  ∧ (names ≠ [] →
     length items = length names
     ∧ Forall (λ item, is_leaf item = true) items
     ∧ item_text <$> items = sort names
     ∧ Sorted String.le (item_text <$> items)
     ∧ item_text <$> items ≡ₚ names)
  ∧ (∀ t cs,
       item_children
         (get_root (_tree (run update (mkWorld (_orchestration w) t cs)).2))
       = items).
Proof.
  intros Hbase names items. subst items. repeat split.
  - intros Hn. rewrite update_empty by done. cbn.
    by exists placeholder_item.
  - rewrite update_nonempty by done. cbn. rewrite Hbase. cbn.
    by rewrite length_fmap, length_sort.
  - rewrite update_nonempty by done. cbn. rewrite Hbase. cbn.
    apply Forall_fmap, Forall_true. done.
  - rewrite update_nonempty by done. cbn. rewrite Hbase. cbn.
    apply signal_item_texts.
  - rewrite update_nonempty by done. cbn. rewrite Hbase. cbn.
    rewrite signal_item_texts. apply sort_Sorted.
  - rewrite update_nonempty by done. cbn. rewrite Hbase. cbn.
    rewrite signal_item_texts. apply sort_Permutation.
  - intros t cs. destruct (decide (names = [])) as [Hn|Hn].
    + by rewrite !update_empty.
    + rewrite !update_nonempty by done. cbn. by rewrite !Hbase.
Qed.

(** C7, as amended.  When the orchestration reports at least one name,
    [update] ends by calling the base class's update, once and after the
    items are in place: the tree is what the base class makes of the
    populated one.  When it reports none, [update] returns once the
    placeholder is in and the base class's update is not called. *)
Theorem update_defers_to_base_when_populated w :
  let names := get_custom_event_names (_orchestration w) in
  let r := run update w in
  (names ≠ [] →
     calls r.2 = calls w ++ [BaseUpdate]
     ∧ _tree r.2
       = base_update (mkTree (root_over (signal_item <$> sort names)) None))
  ∧ (names = [] →
     calls r.2 = calls w
     ∧ _tree r.2 = mkTree (root_over [placeholder_item]) None).
Proof.
  intros names r. subst r. split; intros Hn.
  - by rewrite update_nonempty.
  - by rewrite update_empty.
Qed.

(** * Further properties of the panel *)

(** ** Context menu and shortcuts *)

Lemma new_calls_after w (cs : list Call) :
  new_calls w (after_calls w cs) = cs.
Proof. unfold new_calls, after_calls. cbn. apply drop_app_length. Qed.

Lemma populate_context_menu_run w (p_item : option TreeItem) :
  run (_populate_context_menu p_item) w
  = (true, after_calls w
             [AddIconItem "Rename" "Rename" CM_RENAME_EVENT KEY_F2;
              AddIconItem "Remove" "Remove" CM_REMOVE_EVENT KEY_DELETE]).
Proof.
  unfold _populate_context_menu, add_icon_item. run_panel.
  by rewrite <- (assoc_L (++)).
Qed.

Lemma populated_entries w (p_item : option TreeItem) (id : Z) (accel : Key) :
  (id, accel)
    ∈ menu_entries (new_calls w (run (_populate_context_menu p_item) w).2) →
  (id = CM_RENAME_EVENT ∧ accel = KEY_F2)
  ∨ (id = CM_REMOVE_EVENT ∧ accel = KEY_DELETE).
Proof.
  rewrite populate_context_menu_run. cbn [snd]. rewrite new_calls_after. cbn.
  intros Hin. apply elem_of_cons in Hin as [[= -> ->]|Hin]; [by left|].
  apply list_elem_of_singleton in Hin as [= -> ->]. by right.
Qed.

Lemma gui_input_key_down w (p_event : option InputEvent)
    (p_item : option TreeItem) (k : Key) :
  key_down p_event k →
  run (_handle_tree_gui_input p_event p_item) w
  = run (if decide (k = KEY_F2) then
           _handle_context_menu CM_RENAME_EVENT;; accept_event
         else if decide (k = KEY_DELETE) then
           _handle_context_menu CM_REMOVE_EVENT;; accept_event
         else mret tt) w.
Proof.
  intros (key & -> & Hp & He & Hk). unfold _handle_tree_gui_input. cbn.
  by rewrite Hp, He, Hk.
Qed.

(** The accelerator of every entry that [_populate_context_menu] adds is a
    shortcut of [_handle_tree_gui_input] for that entry: pressing it does
    what choosing the entry does, [_handle_context_menu] of the entry's id,
    and then accepts the event. *)
Theorem menu_accelerators_are_shortcuts w0 (menu_item : option TreeItem)
    (id : Z) (accel : Key) w (p_event : option InputEvent)
    (p_item : option TreeItem) :
  (id, accel)
    ∈ menu_entries
        (new_calls w0 (run (_populate_context_menu menu_item) w0).2) →
  key_down p_event accel →
  run (_handle_tree_gui_input p_event p_item) w
  = run (_handle_context_menu id;; accept_event) w.
Proof.
  intros Hin Hkey. rewrite (gui_input_key_down _ _ _ _ Hkey).
  apply populated_entries in Hin as [[-> ->]|[-> ->]].
  - by rewrite decide_True.
  - rewrite decide_False by (symmetry; apply KEY_F2_neq_KEY_DELETE).
    by rewrite decide_True.
Qed.

(** Every entry that [_populate_context_menu] adds is served by
    [_handle_context_menu]: the id leads to one call, and that call does
    not change the orchestration. *)
Theorem menu_entries_are_dispatched w0 (menu_item : option TreeItem)
    (id : Z) (accel : Key) w :
  (id, accel)
    ∈ menu_entries
        (new_calls w0 (run (_populate_context_menu menu_item) w0).2) →
  ∃ c, run (_handle_context_menu id) w = (tt, after_calls w [c])
       ∧ is_mutation c = false.
Proof.
  intros Hin. apply populated_entries in Hin as [[-> ->]|[-> ->]].
  - exists EditSelectedTreeItem. by rewrite context_menu_rename.
  - exists (ConfirmRemoval (get_selected (_tree w))).
    by rewrite context_menu_remove.
Qed.

(** An id that is neither of the two menu ids falls through the switch of
    [_handle_context_menu]: no call, no change. *)
Theorem context_menu_unknown_id w (p_id : Z) :
  p_id ≠ CM_RENAME_EVENT → p_id ≠ CM_REMOVE_EVENT →
  run (_handle_context_menu p_id) w = (tt, w).
Proof.
  intros Hrename Hremove. unfold _handle_context_menu.
  by rewrite !decide_False.
Qed.


(** ** Renaming, as a whole *)

Lemma rename_valid_name w p_old_name p_new_name :
  p_new_name ∉ get_custom_event_names (_orchestration w) →
  is_valid_identifier p_new_name = true →
  run (_handle_item_renamed p_old_name p_new_name) w
  = ((rename_custom_user_event (_orchestration w) p_old_name p_new_name).1,
     mkWorld
       (rename_custom_user_event (_orchestration w) p_old_name p_new_name).2
       (_tree w) (calls w ++ [RenameCustomUserEvent p_old_name p_new_name])).
Proof.
  intros Hin Hid. unfold _handle_item_renamed. run_panel.
  rewrite (has_false _ _ Hin), Hid. cbn.
  by destruct (rename_custom_user_event _ _ _).
Qed.

(** When [_handle_item_renamed] returns true, the new name was a valid
    identifier that no event had, and the orchestration's rename was called
    with the two names and returned true. *)
Theorem rename_success_sound w p_old_name p_new_name :
  (run (_handle_item_renamed p_old_name p_new_name) w).1 = true →
  (p_new_name ∉ get_custom_event_names (_orchestration w))
  ∧ is_valid_identifier p_new_name = true
  ∧ (rename_custom_user_event (_orchestration w) p_old_name p_new_name).1
    = true
  ∧ new_calls w (run (_handle_item_renamed p_old_name p_new_name) w).2
    = [RenameCustomUserEvent p_old_name p_new_name].
Proof.
  destruct (decide (p_new_name ∈ get_custom_event_names (_orchestration w)))
    as [Hin|Hin].
  { by rewrite rename_existing_name. }
  destruct (is_valid_identifier p_new_name) eqn:Hid.
  - rewrite rename_valid_name by done. cbn. intros Hr.
    repeat split; try done.
    apply (new_calls_after w [RenameCustomUserEvent p_old_name p_new_name]).
  - by rewrite rename_invalid_name.
Qed.


(** ** Selecting, activating and dragging an item without event *)

(** Neither [_handle_item_selected] nor [_handle_item_activated] tests the
    reference it fetched: when no event has the item's name, the editor is
    still asked to edit, a null resource.  [_handle_drag_data] does test
    it, and gives an empty payload for the same item. *)
Theorem item_without_event w {Vector2 : Type} (p_position : Vector2) :
  let name := _get_tree_item_name (get_selected (_tree w)) in
  get_custom_event (_orchestration w) name = None →
  find_custom_event (_orchestration w) name = None →
  new_calls w (run _handle_item_selected w).2 = [EditResource None]
  ∧ new_calls w
      (run (_handle_item_activated (get_selected (_tree w))) w).2
    = [EditResource None]
  ∧ run (_handle_drag_data p_position) w = (∅, w).
Proof.
  intros name Hget Hfind. subst name.
  rewrite item_selected_edits, item_activated_edits, Hget. cbn [snd].
  rewrite new_calls_after. do 2 (split; [done|]).
  unfold _handle_drag_data. run_panel.
  destruct (get_selected (_tree w)); cbn; [|done].
  by rewrite Hfind.
Qed.

(** The drag payload is never half filled: it is empty exactly when
    nothing is selected or the selected item's name finds no event, and has
    its two keys otherwise. *)
Theorem drag_data_empty_iff w {Vector2 : Type} (p_position : Vector2) :
  let data := (run (_handle_drag_data p_position) w).1 in
  let selected := get_selected (_tree w) in
  (data = ∅ ↔
   selected = None
   ∨ find_custom_event (_orchestration w) (_get_tree_item_name selected)
     = None)
  ∧ (data ≠ ∅ → size data = 2%nat).
Proof.
  intros data selected. subst data selected.
  unfold _handle_drag_data. run_panel.
  destruct (get_selected (_tree w)) as [item|]; cbn; [|by intuition].
  destruct (find_custom_event _ _) as [s|]; cbn; [|by intuition].
  split.
  - split.
    + intros Hempty. by apply insert_non_empty in Hempty.
    + by intros [?|?].
  - intros _. rewrite map_size_insert_None.
    + by rewrite map_size_insert_None, map_size_empty.
    + by rewrite lookup_insert_ne.
Qed.

(** ** Rebuilding the tree, further *)

(** [update] leaves the orchestration alone, and updating again gives the
    same tree: items do not pile up. *)
Theorem update_idempotent w :
  let w1 := (run update w).2 in
  _orchestration w1 = _orchestration w
  ∧ _tree (run update w1).2 = _tree w1.
Proof.
  intros w1. subst w1.
  destruct (decide (get_custom_event_names (_orchestration w) = []))
    as [Hn|Hn].
  - rewrite (update_empty w Hn). cbn. split; [done|].
    by rewrite update_empty.
  - rewrite (update_nonempty w Hn). cbn. split; [done|].
    by rewrite update_nonempty.
Qed.

Section BaseKeepsItems.

(** The base class's update keeps the children of the root. *)
Hypothesis base_keeps_items :
  ∀ t, item_children (get_root (base_update t)) = item_children (get_root t).

Lemma update_items w :
  item_children (get_root (_tree (run update w).2))
  = if is_empty (get_custom_event_names (_orchestration w))
    then [placeholder_item]
    else signal_item <$> sort (get_custom_event_names (_orchestration w)).
Proof.
  destruct (get_custom_event_names (_orchestration w)) as [|n l] eqn:Hn.
  - by rewrite update_empty.
  - rewrite update_nonempty by by rewrite Hn.
    cbn. by rewrite base_keeps_items, Hn.
Qed.

(** After [update] the root is never without children: it has as many as
    there are names, and one when there is none. *)
Theorem update_child_count w :
  get_child_count (get_root (_tree (run update w).2))
  = Nat.max 1 (length (get_custom_event_names (_orchestration w))).
Proof.
  unfold get_child_count. rewrite update_items.
  destruct (get_custom_event_names (_orchestration w)) as [|n l] eqn:Hn;
    [done|].
  cbn [is_empty]. rewrite length_fmap, length_sort. cbn. lia.
Qed.

(** The items [update] makes for the events carry the event's name as item
    name as well as text, the icon "MemberSignal", and are selectable. *)
Theorem update_items_named w :
  get_custom_event_names (_orchestration w) ≠ [] →
  let items := item_children (get_root (_tree (run update w).2)) in
  item_name <$> items = sort (get_custom_event_names (_orchestration w))
  ∧ Forall (λ item, item_name item = item_text item
                    ∧ item_icon item = "MemberSignal"
                    ∧ item_selectable item = true) items.
Proof.
  intros Hn items. subst items. rewrite update_items.
  destruct (get_custom_event_names (_orchestration w)) as [|n l]; [done|].
  cbn [is_empty]. split.
  - rewrite <- list_fmap_compose. apply list_fmap_id.
  - apply Forall_fmap, Forall_true. done.
Qed.

(** After [update], a rename onto the text of any item shown for an event
    is rejected as a duplicate. *)
Theorem rename_onto_shown_item_rejected w (item : TreeItem) p_old_name :
  get_custom_event_names (_orchestration w) ≠ [] →
  let w1 := (run update w).2 in
  item ∈ item_children (get_root (_tree w1)) →
  run (_handle_item_renamed p_old_name (item_text item)) w1
  = (false, after_calls w1 [already_exists (item_text item)]).
Proof.
  intros Hn w1 Hitem. subst w1. rewrite update_items in Hitem.
  apply rename_existing_name.
  rewrite (update_nonempty w Hn). cbn.
  destruct (get_custom_event_names (_orchestration w)) as [|n l]; [done|].
  cbn [is_empty] in Hitem.
  apply list_elem_of_fmap in Hitem as (name & -> & Hname). cbn.
  by rewrite <- (sort_Permutation (n :: l)).
Qed.

(** [_handle_remove] calls the orchestration's remove with the item's name,
    whatever the name, and leaves the tree as it is; the [update] after it
    shows the names the orchestration has then. *)
Theorem remove_then_update w (p_item : option TreeItem) :
  let removed :=
    remove_custom_event (_orchestration w) (_get_tree_item_name p_item) in
  let w1 := (run (_handle_remove p_item) w).2 in
  let items := item_children (get_root (_tree (run update w1).2)) in
  w1 = mkWorld removed (_tree w)
         (calls w ++ [RemoveCustomEvent (_get_tree_item_name p_item)])
  ∧ (get_custom_event_names removed = [] → items = [placeholder_item])
  ∧ (get_custom_event_names removed ≠ [] →
     item_text <$> items = sort (get_custom_event_names removed)).
Proof.
  intros removed w1 items. subst items.
  assert (Hw1 : w1 = mkWorld removed (_tree w)
                       (calls w
                        ++ [RemoveCustomEvent (_get_tree_item_name p_item)]))
    by done.
  split; [done|]. rewrite update_items, Hw1. cbn [_orchestration].
  destruct (get_custom_event_names removed) as [|n l]; [done|].
  split; [done|]. intros _. cbn [is_empty]. apply signal_item_texts.
Qed.

End BaseKeepsItems.

End Properties.

(** * The properties on the sample instance *)

Lemma rename_duplicate_rejected_witness :
  let w := Sample.world ["Hit"; "Miss"] None in
  ("Miss" ∈ (run _get_existing_names w).1)
  ∧ (run (_handle_item_renamed "Hit" "Miss") w).1 = false
  ∧ calls (run (_handle_item_renamed "Hit" "Miss") w).2
    = [ShowNotification "An event with the name 'Miss' already exists."].
Proof.
  intros w.
  assert (Hin : "Miss" ∈ (run _get_existing_names w).1)
    by (apply (bool_decide_unpack _); vm_compute; exact I).
  split; [exact Hin|].
  pose proof (rename_duplicate_rejected w "Hit" "Miss" Hin) as H.
  split; [exact (proj1 H)|exact (proj1 (proj2 H))].
Defined.

Lemma rename_invalid_rejected_witness :
  let w := Sample.world ["Hit"; "on hit"] None in
  (Sample.ascii_identifier "2fast" = false
   ∧ ("2fast" ∉ get_custom_event_names (_orchestration w))
   ∧ run (_handle_item_renamed "Hit" "2fast") w
     = (false, after_calls w [ShowInvalidName "event" false]))
  ∧ (Sample.ascii_identifier "on hit" = false
     ∧ ("on hit" ∈ get_custom_event_names (_orchestration w))
     ∧ run (_handle_item_renamed "Hit" "on hit") w
       = (false, after_calls w [already_exists "on hit"])).
Proof.
  intros w.
  assert (Hout : "2fast" ∉ get_custom_event_names (_orchestration w))
    by (apply (bool_decide_unpack _); vm_compute; exact I).
  assert (Hin : "on hit" ∈ get_custom_event_names (_orchestration w))
    by (apply (bool_decide_unpack _); vm_compute; exact I).
  assert (Hid1 : Sample.ascii_identifier "2fast" = false)
    by (vm_compute; reflexivity).
  assert (Hid2 : Sample.ascii_identifier "on hit" = false)
    by (vm_compute; reflexivity).
  split.
  - destruct (rename_invalid_rejected (host := Sample.host)
                w "Hit" "2fast" Hid1)
      as (Hr & _ & _ & Hc & _).
    specialize (Hc Hout).
    split; [exact Hid1|]. split; [exact Hout|]. reflexivity.
  - destruct (rename_invalid_rejected (host := Sample.host)
                w "Hit" "on hit" Hid2)
      as (Hr & _ & _ & _ & Hc).
    specialize (Hc Hin).
    split; [exact Hid2|]. split; [exact Hin|]. reflexivity.
Defined.

Lemma rename_delegates_witness :
  let w := Sample.world ["Hit"] None in
  let r := run (_handle_item_renamed "Hit" "Damage") w in
  ("Damage" ∉ get_custom_event_names (_orchestration w))
  ∧ Sample.ascii_identifier "Damage" = true
  ∧ r.1 = true
  ∧ calls r.2 = [RenameCustomUserEvent "Hit" "Damage"]
  ∧ _orchestration r.2 = ["Damage"].
Proof.
  intros w r.
  assert (Hout : "Damage" ∉ get_custom_event_names (_orchestration w))
    by (apply (bool_decide_unpack _); vm_compute; exact I).
  assert (Hid : Sample.ascii_identifier "Damage" = true)
    by (vm_compute; reflexivity).
  destruct (rename_delegates (host := Sample.host)
              w "Hit" "Damage" Hout Hid)
    as (Hr & Hc & Ho & _).
  split; [exact Hout|]. split; [exact Hid|].
  split; [exact Hr|]. split; [exact Hc|exact Ho].
Defined.

Lemma rename_to_same_name_rejected_witness :
  let w := Sample.world ["Hit"] None in
  let r := run (_handle_item_renamed "Hit" "Hit") w in
  ("Hit" ∈ get_custom_event_names (_orchestration w))
  ∧ r.1 = false
  ∧ calls r.2
    = [ShowNotification "An event with the name 'Hit' already exists."]
  ∧ _orchestration r.2 = ["Hit"].
Proof.
  intros w r.
  assert (Hin : "Hit" ∈ get_custom_event_names (_orchestration w))
    by (apply (bool_decide_unpack _); vm_compute; exact I).
  destruct (rename_to_same_name_rejected w "Hit" Hin) as (Hr & Hc & Ho).
  split; [exact Hin|]. split; [exact Hr|]. split; [exact Hc|exact Ho].
Defined.

Lemma selected_activated_agree_witness :
  let w := Sample.world ["Hit"] (Some (signal_item "Hit")) in
  let p_item := Some (mkTreeItem "Hit (edited)" "Hit" EmptyString true []) in
  _get_tree_item_name (get_selected (_tree w)) = _get_tree_item_name p_item
  ∧ run _handle_item_selected w = run (_handle_item_activated p_item) w
  ∧ calls (run (_handle_item_activated p_item) w).2
    = [EditResource (Some "Hit")].
Proof.
  intros w p_item.
  destruct (selected_activated_agree (host := Sample.host) w p_item eq_refl)
    as (Hs & Ha).
  split; [reflexivity|]. split; [exact Hs|].
  exact (f_equal (λ r, calls r.2) Ha).
Defined.

Lemma drag_data_payload_witness :
  let unselected := Sample.world ["Hit"] None in
  let stale := Sample.world ["Hit"] (Some (signal_item "Gone")) in
  let w := Sample.world ["Hit"] (Some (signal_item "Hit")) in
  (run (_handle_drag_data (0, 0)) unselected).1 = ∅
  ∧ (run (_handle_drag_data (0, 0)) stale).1 = ∅
  ∧ (run (_handle_drag_data (0, 0)) w).1 !! "type"
    = Some (V_STRING "signal").
Proof.
  intros unselected stale w.
  destruct (drag_data_payload (host := Sample.host) (0, 0) unselected)
    as (_ & Hnone & _).
  destruct (drag_data_payload (host := Sample.host) (0, 0) stale)
    as (_ & _ & Hstale & _).
  destruct (drag_data_payload (host := Sample.host) (0, 0) w)
    as (_ & _ & _ & Hvalid).
  split; [exact (Hnone eq_refl)|]. split; [exact (Hstale eq_refl)|].
  exact (proj1 (Hvalid (signal_item "Hit") "Hit" eq_refl eq_refl)).
Defined.

Lemma tree_gui_input_shortcuts_witness :
  let w := Sample.world ["Hit"] (Some (signal_item "Hit")) in
  let key pressed echo code :=
    Some (IE_Key (mkInputEventKey pressed echo code)) in
  (run (_handle_tree_gui_input (key true false KEY_F2) None) w).2
  = after_calls w [EditSelectedTreeItem; AcceptEvent]
  ∧ (run (_handle_tree_gui_input (key true false KEY_DELETE) None) w).2
    = after_calls w [ConfirmRemoval (Some (signal_item "Hit")); AcceptEvent]
  ∧ (run (_handle_tree_gui_input (key true true KEY_F2) None) w).2 = w.
Proof.
  intros w key.
  destruct (tree_gui_input_shortcuts
              w (key true false KEY_F2) None) as (Hf2 & _).
  destruct (tree_gui_input_shortcuts
              w (key true false KEY_DELETE) None) as (_ & Hdel & _).
  destruct (tree_gui_input_shortcuts
              w (key true true KEY_F2) None) as (_ & _ & Hecho).
  split; [|split].
  - apply Hf2.
    exists (mkInputEventKey true false KEY_F2). by repeat split.
  - apply Hdel.
    exists (mkInputEventKey true false KEY_DELETE). by repeat split.
  - apply Hecho.
    + intros (k & [= <-] & _ & He & _). discriminate He.
    + intros (k & [= <-] & _ & He & _). discriminate He.
Defined.

Lemma update_renders_names_witness :
  let w := Sample.world ["Jump"; "Hit"; "Land"] None in
  let none := Sample.world [] (Some (signal_item "Hit")) in
  (∀ t, item_children (get_root (base_update t))
        = item_children (get_root t))
  ∧ item_text <$> item_children (get_root (_tree (run update w).2))
    = ["Hit"; "Jump"; "Land"]
  ∧ ∃ item, item_children (get_root (_tree (run update none).2)) = [item]
            ∧ item_text item = "No signals defined"
            ∧ item_selectable item = false.
Proof.
  intros w none.
  assert (Hbase : ∀ t, item_children (get_root (base_update t))
                       = item_children (get_root t))
    by (intros t; reflexivity).
  split; [exact Hbase|]. split.
  - destruct (update_renders_names (host := Sample.host) w Hbase)
      as (_ & Hn & _).
    assert (Hne : get_custom_event_names (_orchestration w) ≠ [])
      by discriminate.
    exact (proj1 (proj2 (proj2 (Hn Hne)))).
  - exact (proj1 (update_renders_names (host := Sample.host) none Hbase)
             eq_refl).
Defined.

Lemma update_defers_to_base_when_populated_witness :
  let w := Sample.world ["Jump"; "Hit"] None in
  get_custom_event_names (_orchestration w) ≠ []
  ∧ calls (run update w).2 = [BaseUpdate].
Proof.
  intros w.
  assert (Hne : get_custom_event_names (_orchestration w) ≠ [])
    by discriminate.
  split; [exact Hne|].
  exact (proj1 (proj1 (update_defers_to_base_when_populated
                         (host := Sample.host) w) Hne)).
Defined.

(** C7, as stated, fails: with no event, [update] makes no call at all, so
    it does not end by calling the base class's update. *)
Lemma update_without_events_skips_base :
  let w := Sample.world [] None in
  get_custom_event_names (_orchestration w) = []
  ∧ calls (run update w).2 = []
  ∧ last (calls (run update w).2) ≠ Some BaseUpdate
  ∧ BaseUpdate ∉ calls (run update w).2.
Proof.
  intros w. split; [reflexivity|]. split; [reflexivity|].
  split; [discriminate|]. apply not_elem_of_nil.
Qed.

(** * The further properties on the sample instance *)

Lemma menu_accelerators_are_shortcuts_witness :
  let w0 := Sample.world ["Hit"] None in
  let w := Sample.world ["Hit"] (Some (signal_item "Hit")) in
  let e := Some (IE_Key (mkInputEventKey true false KEY_DELETE)) in
  ((CM_REMOVE_EVENT, KEY_DELETE)
     ∈ menu_entries (new_calls w0 (run (_populate_context_menu None) w0).2))
  ∧ key_down e KEY_DELETE
  ∧ run (_handle_tree_gui_input e None) w
    = run (_handle_context_menu CM_REMOVE_EVENT;; accept_event) w.
Proof.
  intros w0 w e.
  assert (Hin : (CM_REMOVE_EVENT, KEY_DELETE)
                  ∈ menu_entries
                      (new_calls w0 (run (_populate_context_menu None) w0).2))
    by (apply (bool_decide_unpack _); vm_compute; exact I).
  assert (Hkey : key_down e KEY_DELETE)
    by (exists (mkInputEventKey true false KEY_DELETE); repeat split).
  split; [exact Hin|]. split; [exact Hkey|].
  exact (menu_accelerators_are_shortcuts
           w0 None CM_REMOVE_EVENT KEY_DELETE w e None Hin Hkey).
Defined.

Lemma menu_entries_are_dispatched_witness :
  let w0 := Sample.world ["Hit"] None in
  ((CM_RENAME_EVENT, KEY_F2)
     ∈ menu_entries (new_calls w0 (run (_populate_context_menu None) w0).2))
  ∧ ∃ c, run (_handle_context_menu CM_RENAME_EVENT) w0
         = (tt, after_calls w0 [c])
         ∧ is_mutation c = false.
Proof.
  intros w0.
  assert (Hin : (CM_RENAME_EVENT, KEY_F2)
                  ∈ menu_entries
                      (new_calls w0 (run (_populate_context_menu None) w0).2))
    by (apply (bool_decide_unpack _); vm_compute; exact I).
  split; [exact Hin|].
  exact (menu_entries_are_dispatched w0 None CM_RENAME_EVENT KEY_F2 w0 Hin).
Defined.

Lemma context_menu_unknown_id_witness :
  let w := Sample.world ["Hit"] (Some (signal_item "Hit")) in
  2 ≠ CM_RENAME_EVENT ∧ 2 ≠ CM_REMOVE_EVENT
  ∧ run (_handle_context_menu 2) w = (tt, w).
Proof.
  intros w.
  assert (Hrename : 2 ≠ CM_RENAME_EVENT) by discriminate.
  assert (Hremove : 2 ≠ CM_REMOVE_EVENT) by discriminate.
  split; [exact Hrename|]. split; [exact Hremove|].
  exact (context_menu_unknown_id w 2 Hrename Hremove).
Defined.

Lemma rename_success_sound_witness :
  let w := Sample.world ["Hit"; "Jump"] None in
  (run (_handle_item_renamed "Hit" "Damage") w).1 = true
  ∧ ("Damage" ∉ get_custom_event_names (_orchestration w))
  ∧ Sample.ascii_identifier "Damage" = true.
Proof.
  intros w.
  assert (Hr : (run (_handle_item_renamed "Hit" "Damage") w).1 = true)
    by (vm_compute; reflexivity).
  destruct (rename_success_sound (host := Sample.host) w "Hit" "Damage" Hr)
    as (Hout & Hid & _).
  split; [exact Hr|]. split; [exact Hout|exact Hid].
Defined.


Lemma item_without_event_witness :
  let w := Sample.world ["Hit"] (Some (signal_item "Gone")) in
  get_custom_event (_orchestration w) "Gone" = None
  ∧ new_calls w (run _handle_item_selected w).2 = [EditResource None]
  ∧ run (_handle_drag_data (0, 0)) w = (∅, w).
Proof.
  intros w.
  assert (Hget : get_custom_event (_orchestration w) "Gone" = None)
    by (vm_compute; reflexivity).
  destruct (item_without_event (host := Sample.host) w (0, 0) Hget Hget)
    as (Hs & _ & Hd).
  split; [exact Hget|]. split; [exact Hs|exact Hd].
Defined.

Lemma drag_data_empty_iff_witness :
  let w := Sample.world ["Hit"] (Some (signal_item "Hit")) in
  (run (_handle_drag_data (0, 0)) w).1 ≠ ∅
  ∧ size (run (_handle_drag_data (0, 0)) w).1 = 2%nat.
Proof.
  intros w.
  destruct (drag_data_empty_iff (host := Sample.host) w (0, 0))
    as (Hiff & Hsize).
  assert (Hne : (run (_handle_drag_data (0, 0)) w).1 ≠ ∅).
  { intros Hempty. destruct (proj1 Hiff Hempty) as [H|H]; discriminate H. }
  split; [exact Hne|exact (Hsize Hne)].
Defined.

Lemma sample_base_keeps_items (t : Tree) :
  item_children (get_root (base_update (HostAPI := Sample.host) t))
  = item_children (get_root t).
Proof. reflexivity. Defined.

Lemma update_child_count_witness :
  let w := Sample.world ["Jump"; "Hit"; "Land"] None in
  let none := Sample.world [] None in
  get_child_count (get_root (_tree (run update w).2)) = 3%nat
  ∧ get_child_count (get_root (_tree (run update none).2)) = 1%nat.
Proof.
  intros w none. split.
  - exact (update_child_count (host := Sample.host)
             sample_base_keeps_items w).
  - exact (update_child_count (host := Sample.host)
             sample_base_keeps_items none).
Defined.

Lemma update_items_named_witness :
  let w := Sample.world ["Jump"; "Hit"] None in
  get_custom_event_names (_orchestration w) ≠ []
  ∧ item_name <$> item_children (get_root (_tree (run update w).2))
    = ["Hit"; "Jump"].
Proof.
  intros w.
  assert (Hn : get_custom_event_names (_orchestration w) ≠ [])
    by discriminate.
  split; [exact Hn|].
  exact (proj1 (update_items_named (host := Sample.host)
                  sample_base_keeps_items w Hn)).
Defined.

Lemma rename_onto_shown_item_rejected_witness :
  let w := Sample.world ["Jump"; "Hit"] None in
  let w1 := (run update w).2 in
  get_custom_event_names (_orchestration w) ≠ []
  ∧ signal_item "Jump" ∈ item_children (get_root (_tree w1))
  ∧ run (_handle_item_renamed "Hit" "Jump") w1
    = (false, after_calls w1 [already_exists "Jump"]).
Proof.
  intros w w1.
  assert (Hn : get_custom_event_names (_orchestration w) ≠ [])
    by discriminate.
  assert (Hin : signal_item "Jump" ∈ item_children (get_root (_tree w1)))
    by (vm_compute; apply list_elem_of_further, list_elem_of_here).
  split; [exact Hn|]. split; [exact Hin|].
  exact (rename_onto_shown_item_rejected (host := Sample.host)
           sample_base_keeps_items w (signal_item "Jump") "Hit" Hn Hin).
Defined.

Lemma remove_then_update_witness :
  let w := Sample.world ["Jump"; "Hit"; "Land"] None in
  let w1 := (run (_handle_remove (Some (signal_item "Jump"))) w).2 in
  _orchestration w1 = ["Hit"; "Land"]
  ∧ item_text <$> item_children (get_root (_tree (run update w1).2))
    = ["Hit"; "Land"].
Proof.
  intros w w1.
  destruct (remove_then_update (host := Sample.host)
              sample_base_keeps_items w (Some (signal_item "Jump")))
    as (Hw1 & _ & Hitems).
  split; [exact (f_equal _orchestration Hw1)|].
  apply Hitems. discriminate.
Defined.
